(** * raven-js adapters: the Node capture bridge and the browser backend

    A shallow embedding of
      - packages/node/src/lib/node.ts     (class [SentryNode])
      - packages/browser/src/backend.ts   (class [BrowserBackend])
    and the properties of the capture bridge, the event normalizer and the
    transport dispatch that hold of it. *)

From Stdlib Require Import String List Bool ZArith DecimalString SpecFloat.
Import ListNotations.
Open Scope string_scope.
Open Scope list_scope.

Set Implicit Arguments.
Set Warnings "-register-all".

(** ** Shared data: events, breadcrumbs, errors *)

(** One entry of a stack trace as it is reported in an event. *)
Record StackFrame := mkFrame {
  filename : string;
  function : string;
  lineno : Z;
  colno : Z
}.

(** [mechanism: { handled, type }] of an exception descriptor. *)
Record Mechanism := mkMechanism {
  handled : bool;
  mechanism_type : string
}.

(** One reported exception: [{ type, value, stacktrace: { frames } }]. *)
Record SentryException := mkException {
  ex_type : option string;
  ex_value : string;
  ex_frames : list StackFrame
}.

(** The [exception] member of an event: [{ values?, mechanism? }]. *)
Record ExceptionDescriptor := mkDescriptor {
  values : option (list SentryException);
  mechanism : option Mechanism
}.

(** [SentryEvent], restricted to the members the two adapters read or write.
    An absent member is [None]. *)
Record SentryEvent := mkEvent {
  message : option string;
  exception : option ExceptionDescriptor;
  fingerprint : option (list string);
  stacktrace : option (list StackFrame);
  transaction : option string
}.

(** A breadcrumb is passed through untouched. *)
Record Breadcrumb := mkBreadcrumb {
  crumb_category : string;
  crumb_message : string
}.

(** What JavaScript code can throw here: a plain [Error] or a [SentryError],
    each with its message. *)
Inductive Exn :=
| Error (msg : string)
| SentryError (msg : string).

(** How a synchronous call ends. *)
Inductive Res (A : Type) :=
| Returned (a : A)
| Threw (e : Exn).
Arguments Returned {A} a.
Arguments Threw {A} e.

(** The settled state of a promise returned by an [async] method. *)
Inductive Promise (A : Type) :=
| Resolved (a : A)
| Rejected (e : Exn).
Arguments Resolved {A} a.
Arguments Rejected {A} e.

(** ** The Node adapter: node.ts *)

Module Node.

(** What the single slot [captured: any] can hold; [undefined] is [None]. *)
Inductive Artifact :=
| AnEvent (e : SentryEvent)
| ACrumb (b : Breadcrumb).

(** Calls that leave the adapter, in the order they are made. *)
Inductive Effect :=
| ClientSend (e : SentryEvent)               (* this.client.send(event) *)
| ClientCaptureBreadcrumb (b : Breadcrumb)   (* this.client.captureBreadcrumb(crumb) *)
| RavenCaptureBreadcrumb (b : Breadcrumb)    (* captureRavenBreadcrumb.call(Raven, crumb) *)
| RavenSend (e : SentryEvent).               (* sendRavenEvent.call(Raven, event, cb) *)

(** The two private fields of [SentryNode], and the DSN of its client, which
    only [install] reads. *)
Record SentryNode := mkNode {
  capturing : bool;
  captured : option Artifact;
  client_dsn : option string
}.

(** [new SentryNode(client)]: [capturing = false], [captured] unset. *)
Definition fresh (dsn : option string) : SentryNode :=
  {| capturing := false; captured := None; client_dsn := dsn |}.

Definition set_capturing (b : bool) (s : SentryNode) : SentryNode :=
  {| capturing := b; captured := captured s; client_dsn := client_dsn s |}.

Definition set_captured (a : option Artifact) (s : SentryNode) : SentryNode :=
  {| capturing := capturing s; captured := a; client_dsn := client_dsn s |}.

(** A method body: it reads and writes the fields of [this], emits outside
    calls and returns or throws. A throw keeps the fields as they are at the
    throw and the calls made so far. *)
Definition M (A : Type) : Type := SentryNode -> Res A * SentryNode * list Effect.

Definition ret {A} (a : A) : M A := fun s => (Returned a, s, []).

Definition throw {A} (e : Exn) : M A := fun s => (Threw e, s, []).

Definition bind {A B} (m : M A) (f : A -> M B) : M B :=
  fun s =>
    match m s with
    | (Returned a, s1, w1) =>
        match f a s1 with
        | (r, s2, w2) => (r, s2, w1 ++ w2)
        end
    | (Threw e, s1, w1) => (Threw e, s1, w1)
    end.

Definition get_capturing : M bool := fun s => (Returned (capturing s), s, []).
Definition get_captured : M (option Artifact) := fun s => (Returned (captured s), s, []).
Definition put_capturing (b : bool) : M unit := fun s => (Returned tt, set_capturing b s, []).
Definition put_captured (a : option Artifact) : M unit := fun s => (Returned tt, set_captured a s, []).
Definition emit (e : Effect) : M unit := fun s => (Returned tt, s, [e]).

Notation "x <- m ;; k" := (bind m (fun x => k))
  (at level 61, m at next level, right associativity).
Notation "m ;; k" := (bind m (fun _ => k))
  (at level 61, right associativity).

(** [private interceptRavenSend(event)] *)
Definition interceptRavenSend (event : SentryEvent) : M unit :=
  c <- get_capturing ;;
  if c then put_captured (Some (AnEvent event))
  else emit (ClientSend event).

(** [private interceptRavenBreadcrumb(crumb)] *)
Definition interceptRavenBreadcrumb (crumb : Breadcrumb) : M unit :=
  c <- get_capturing ;;
  if c then
    emit (RavenCaptureBreadcrumb crumb) ;;
    put_captured (Some (ACrumb crumb))
  else emit (ClientCaptureBreadcrumb crumb).

(** [private capture<R>(callback)] *)
Definition capture (callback : M unit) : M Artifact :=
  put_captured None ;;
  put_capturing true ;;
  callback ;;
  c <- get_captured ;;
  put_captured None ;;
  put_capturing false ;;
  match c with
  | None => throw (Error "Could not capture.")
  | Some a => ret a
  end.

(** What a callback handed to [capture] does, seen from the adapter: the
    engine fires the two installed hooks ([Raven.send] and
    [Raven.captureBreadcrumb], both replaced by [install]) any number of
    times, code reached from the engine may call back into [capture], and the
    callback then returns or throws. An error of a nested call is not caught:
    it ends the callback. *)
Inductive Op :=
| Return
| Throw (e : Exn)
| FireSend (event : SentryEvent) (k : Op)
| FireBreadcrumb (crumb : Breadcrumb) (k : Op)
| Reenter (inner : Op) (k : Op).

Fixpoint run (op : Op) : M unit :=
  match op with
  | Return => ret tt
  | Throw e => throw e
  | FireSend event k => interceptRavenSend event ;; run k
  | FireBreadcrumb crumb k => interceptRavenBreadcrumb crumb ;; run k
  | Reenter inner k => capture (run inner) ;; run k
  end.

(** [captureException], [captureMessage] and [captureBreadcrumb] each wrap one
    engine call in [capture]; the engine's part is the [Op]. *)
Definition captureException (engine : Op) : M Artifact := capture (run engine).
Definition captureMessage (engine : Op) : M Artifact := capture (run engine).
Definition captureBreadcrumb (breadcrumb : Breadcrumb) : M Artifact :=
  capture (run (FireBreadcrumb breadcrumb Return)).

(** [public send(event)]: the promise settles from the error-first callback of
    the engine's original send, [sendRavenEvent]; [None] is a call back
    without an error. *)
Definition send (sendRavenEvent : SentryEvent -> option Exn)
    (event : SentryEvent) (s : SentryNode) : Promise unit * SentryNode * list Effect :=
  (match sendRavenEvent event with
   | Some error => Rejected error
   | None => Resolved tt
   end, s, [RavenSend event]).

(** The hook firings of an operation, in order. *)
Fixpoint firings (op : Op) : list Artifact :=
  match op with
  | Return | Throw _ => []
  | FireSend event k => AnEvent event :: firings k
  | FireBreadcrumb crumb k => ACrumb crumb :: firings k
  | Reenter inner k => firings inner ++ firings k
  end.

(** An operation that only fires hooks and then returns. *)
Fixpoint fires_only (op : Op) : bool :=
  match op with
  | Return => true
  | Throw _ => false
  | FireSend _ k | FireBreadcrumb _ k => fires_only k
  | Reenter _ _ => false
  end.

(** The breadcrumbs among a list of artifacts, as engine recordings. *)
Fixpoint recordings (l : list Artifact) : list Effect :=
  match l with
  | [] => []
  | AnEvent _ :: l' => recordings l'
  | ACrumb b :: l' => RavenCaptureBreadcrumb b :: recordings l'
  end.

(** The fields as [capture] leaves them before it calls the callback. *)
Definition entry (s : SentryNode) : SentryNode :=
  {| capturing := true; captured := None; client_dsn := client_dsn s |}.

(** The slot after a run of firings that are all stored. *)
Definition slot_after (init : option Artifact) (l : list Artifact) : option Artifact :=
  fold_left (fun _ a => Some a) l init.

End Node.

(** ** The browser backend: backend.ts *)

Module Browser.

(** *** JavaScript values, as far as [eventFromException] inspects them *)

(** The class of an object as [Object.prototype.toString] reports it. *)
Inductive ObjClass :=
| ClsObject          (* [object Object] *)
| ClsError           (* [object Error] *)
| ClsErrorEvent      (* [object ErrorEvent] *)
| ClsDOMError        (* [object DOMError] *)
| ClsDOMException    (* [object DOMException] *)
| ClsOther.          (* arrays, functions, dates, ... *)

(** A value of type [any]: the primitives other than symbols, and objects
    with their class and own properties. A number is a double: a zero, an
    infinity, NaN, or sign, mantissa and exponent for the value [m * 2^e]. *)
Inductive JsValue :=
| JsUndefined
| JsNull
| JsBoolean (b : bool)
| JsNumber (n : spec_float)
| JsString (s : string)
| JsObject (cls : ObjClass) (props : list (string * JsValue)).

Definition class_of (v : JsValue) : option ObjClass :=
  match v with
  | JsObject cls _ => Some cls
  | _ => None
  end.

(** Modelled from the spec: the predicates of [@sentry/utils/is] are not
    under src/. Each tests the shape that the classification order of the
    normalizer names: wrapped browser error event, legacy DOM error type,
    standard error object, plain data object. *)
Definition isErrorEvent (v : JsValue) : bool :=
  match class_of v with Some ClsErrorEvent => true | _ => false end.

Definition isDOMError (v : JsValue) : bool :=
  match class_of v with Some ClsDOMError => true | _ => false end.

Definition isDOMException (v : JsValue) : bool :=
  match class_of v with Some ClsDOMException => true | _ => false end.

Definition isError (v : JsValue) : bool :=
  match class_of v with
  | Some ClsError | Some ClsDOMException => true
  | _ => false
  end.

Definition isPlainObject (v : JsValue) : bool :=
  match class_of v with Some ClsObject => true | _ => false end.

(** [v.key]: an own property, [undefined] when there is none. *)
Fixpoint lookup (key : string) (props : list (string * JsValue)) : JsValue :=
  match props with
  | [] => JsUndefined
  | (k, v) :: rest => if String.eqb k key then v else lookup key rest
  end.

Definition get (v : JsValue) (key : string) : JsValue :=
  match v with
  | JsObject _ props => lookup key props
  | _ => JsUndefined
  end.

(** [v.key = x] on an object. *)
Definition set (v : JsValue) (key : string) (x : JsValue) : JsValue :=
  match v with
  | JsObject cls props => JsObject cls ((key, x) :: props)
  | _ => v
  end.

(** Truthiness, as [if (v)], [v ? a : b] and [v || w] test it. *)
Definition truthy (v : JsValue) : bool :=
  match v with
  | JsUndefined | JsNull => false
  | JsBoolean b => b
  | JsNumber (S754_zero _) | JsNumber S754_nan => false
  | JsNumber _ => true
  | JsString s => negb (String.eqb s "")
  | JsObject _ _ => true
  end.

(** [a || b] *)
Definition jsOr (a b : JsValue) : JsValue := if truthy a then a else b.

(** *** Collaborators *)

(** A raw frame and a computed trace of [./tracekit]. *)
Record TraceKitStackFrame := mkRawFrame {
  url : string;
  func : string;
  line : Z;
  column : Z
}.

Record TraceKitStackTrace := mkTrace {
  tk_name : option string;
  tk_message : string;
  stack : list TraceKitStackFrame
}.

(** Where [backend.ts] constructs an [Error]. *)
Inductive Site :=
| InEventFromException    (* new Error(options.message) *)
| InEventFromMessage.     (* throw new Error(message) *)

(** The number with an integer value. *)
Definition num (z : Z) : spec_float :=
  match z with
  | Z0 => S754_zero false
  | Zpos m => S754_finite false m 0
  | Zneg m => S754_finite true m 0
  end.

(** The value of a number when it is an integer. *)
Definition integer_of (n : spec_float) : option Z :=
  match n with
  | S754_zero _ => Some 0%Z
  | S754_finite s m e =>
      let v :=
        if (0 <=? e)%Z then Some (Z.pos m * 2 ^ e)%Z
        else if (Z.pos m mod 2 ^ (- e) =? 0)%Z then Some (Z.pos m / 2 ^ (- e))%Z
        else None in
      match v with
      | Some z => Some (if s then (- z)%Z else z)
      | None => None
      end
  | _ => None
  end.

(** What the normalizer imports from [./tracekit] and [./parsers], and what
    it takes from the runtime: the [toString] of an object, the digits of a
    number that is not a safe integer, and the stack that a new [Error]
    records at a site. All are black boxes; they return. *)
Class Parsers := {
  computeStackTrace : JsValue -> TraceKitStackTrace;
  eventFromStacktrace : TraceKitStackTrace -> SentryEvent;
  prepareFramesForEvent : list TraceKitStackFrame -> list StackFrame;
  getEventOptionsFromPlainObject : JsValue -> SentryEvent;
  objectToString : ObjClass -> list (string * JsValue) -> string;
  numberToString : spec_float -> string;
  stackAt : Site -> string -> string
}.

Section Normalizer.
Context {P : Parsers}.

(** The string of a number: [NaN], the infinities, [0] for both zeros, the
    decimal digits of an integer below [2^53] in size, and for every other
    number what the runtime prints ([0.5], [1e+21]). *)
Definition Number_toString (n : spec_float) : string :=
  match n with
  | S754_nan => "NaN"
  | S754_infinity false => "Infinity"
  | S754_infinity true => "-Infinity"
  | S754_zero _ => "0"
  | S754_finite _ _ _ =>
      match integer_of n with
      | Some z =>
          if (Z.abs z <? 2 ^ 53)%Z then NilZero.string_of_int (Z.to_int z)
          else numberToString n
      | None => numberToString n
      end
  end.

(** [String(v)], and what a template literal does to [v]: the [ToString] of
    the language. *)
Definition ToString (v : JsValue) : string :=
  match v with
  | JsUndefined => "undefined"
  | JsNull => "null"
  | JsBoolean true => "true"
  | JsBoolean false => "false"
  | JsNumber n => Number_toString n
  | JsString s => s
  | JsObject cls props => objectToString cls props
  end.

(** [new Error(message)] at a site: an [Error] with the name ["Error"], that
    message and the stack recorded there. *)
Definition newError (site : Site) (msg : string) : JsValue :=
  JsObject ClsError
    [("name", JsString "Error"); ("message", JsString msg);
     ("stack", JsString (stackAt site msg))].

(** [public async eventFromMessage(message)] *)
Definition eventFromMessage (message : JsValue) : Promise SentryEvent :=
  let message := ToString message in
  let syntheticException := set (newError InEventFromMessage message) "name" JsNull in
  let stacktrace := computeStackTrace syntheticException in
  let frames := prepareFramesForEvent (stack stacktrace) in
  Resolved {| fingerprint := Some [message];
              message := Some message;
              stacktrace := Some frames;
              exception := None;
              transaction := None |}.

(** [{ ...event.exception, mechanism: { handled: true, type: 'generic' } }] *)
Definition withMechanism (d : option ExceptionDescriptor) : ExceptionDescriptor :=
  {| values := match d with Some d => values d | None => None end;
     mechanism := Some {| handled := true; mechanism_type := "generic" |} |}.

(** The tail of [eventFromException], from [const event = ...] on. *)
Definition eventFromError (error : JsValue) : Promise SentryEvent :=
  let event := eventFromStacktrace (computeStackTrace error) in
  Resolved {| message := message event;
              exception := Some (withMechanism (exception event));
              fingerprint := fingerprint event;
              stacktrace := stacktrace event;
              transaction := transaction event |}.

(** [public async eventFromException(exception)] *)
Definition eventFromException (exception : JsValue) : Promise SentryEvent :=
  if isErrorEvent exception && truthy (get exception "error") then
    eventFromError (get exception "error")
  else if isDOMError exception || isDOMException exception then
    let name :=
      jsOr (get exception "name")
           (JsString (if isDOMError exception then "DOMError" else "DOMException")) in
    let message :=
      if truthy (get exception "message")
      then JsString (ToString name ++ ": " ++ ToString (get exception "message"))%string
      else name in
    eventFromMessage message
  else if isError exception then
    eventFromError exception
  else if isPlainObject exception then
    let options := getEventOptionsFromPlainObject exception in
    eventFromError
      (newError InEventFromException
         (match message options with Some m => m | None => "" end))
  else
    eventFromMessage exception.

End Normalizer.

(** The five shapes of the classification order, and the branch of
    [eventFromException] that each names (first match wins). *)
Inductive Shape :=
| WrappedEvent
| DomLegacyError
| StandardError
| PlainRecord
| Other.

Definition classify (exception : JsValue) : Shape :=
  if isErrorEvent exception && truthy (get exception "error") then WrappedEvent
  else if isDOMError exception || isDOMException exception then DomLegacyError
  else if isError exception then StandardError
  else if isPlainObject exception then PlainRecord
  else Other.

(** The frames that an exception descriptor carries. *)
Definition descriptor_frames (d : ExceptionDescriptor) : list StackFrame :=
  match values d with
  | Some vs => flat_map ex_frames vs
  | None => []
  end.

Definition exception_frames (event : SentryEvent) : list StackFrame :=
  match exception event with
  | Some d => descriptor_frames d
  | None => []
  end.

(** *** Transport dispatch *)

(** A parsed DSN, opaque to the backend; it keeps the string it came from. *)
Record DSN := mkDSN { dsn_source : string }.

(** [TransportOptions]: the DSN and transport-specific members. *)
Record TransportOptions := mkTransportOptions {
  to_dsn : DSN;
  to_fields : list (string * string)
}.

(** The transport classes that [sendEvent] can instantiate: the two of
    [./transports] and a class that the caller passed as [options.transport]. *)
Inductive TransportClass :=
| FetchTransport
| XHRTransport
| CustomTransport (name : string).

Inductive Status := Unknown | Skipped | Success | RateLimit | Invalid | Failed.

Record SentryResponse := mkResponse {
  status : Status;
  code : option Z
}.

(** The members of [BrowserOptions] that [sendEvent] reads. *)
Record BrowserOptions := mkOptions {
  dsn : option string;
  transport : option TransportClass;
  transportOptions : option TransportOptions
}.

(** What [sendEvent] does outside the backend, in order. *)
Inductive Effect :=
| New (c : TransportClass) (o : TransportOptions)                       (* new c(o) *)
| TransportSend (c : TransportClass) (o : TransportOptions) (e : SentryEvent).  (* transport.send(e) *)

(** What the dispatch takes from outside: the [DSN] constructor of
    [@sentry/core], which throws on a string it cannot parse,
    [supportsFetch()] of [@sentry/utils/supports], and the outcome of
    [send] on an instance of a transport class. *)
Class Runtime := {
  newDSN : string -> Res DSN;
  supportsFetch : bool;
  transportSend : TransportClass -> TransportOptions -> SentryEvent -> Promise SentryResponse
}.

(** [!this.options.dsn]: unset or the empty string. *)
Definition dsn_missing (d : option string) : bool :=
  match d with
  | None => true
  | Some d => String.eqb d ""
  end.

Section Dispatch.
Context {R : Runtime}.

(** [public async sendEvent(event)] *)
Definition sendEvent (options : BrowserOptions) (event : SentryEvent)
  : Promise SentryResponse * list Effect :=
  match dsn options with
  | None => (Rejected (SentryError "Cannot sendEvent without a valid DSN"), [])
  | Some d =>
      if String.eqb d "" then
        (Rejected (SentryError "Cannot sendEvent without a valid DSN"), [])
      else
        match newDSN d with
        | Threw e => (Rejected e, [])
        | Returned dsn =>
            let default := {| to_dsn := dsn; to_fields := [] |} in
            let transportOptions :=
              match transportOptions options with
              | Some o => o
              | None => default
              end in
            let '(c, o) :=
              match transport options with
              | Some custom => (custom, default)
              | None =>
                  if supportsFetch then (FetchTransport, transportOptions)
                  else (XHRTransport, transportOptions)
              end in
            (transportSend c o event, [New c o; TransportSend c o event])
        end
  end.

End Dispatch.

(** Transport selection as a function of the explicit class (if any) and the
    fetch capability. *)
Definition selectTransport (explicit : option TransportClass) (fetch : bool)
  : TransportClass :=
  match explicit with
  | Some custom => custom
  | None => if fetch then FetchTransport else XHRTransport
  end.

(** The transport options that a call resolves: the explicit ones when given,
    else the default built from the DSN alone. *)
Definition resolvedOptions (explicit : option TransportOptions) (dsn : DSN)
  : TransportOptions :=
  match explicit with
  | Some o => o
  | None => {| to_dsn := dsn; to_fields := [] |}
  end.

End Browser.

(** ** Collaborators to evaluate with *)

Module Sample.
Import Browser.

Definition LF : string := String (Ascii.ascii_of_nat 10) "".

(** The lines of a string, split at line feeds. *)
Fixpoint lines (acc s : string) : list string :=
  match s with
  | EmptyString => [acc]
  | String c rest =>
      if Ascii.eqb c (Ascii.ascii_of_nat 10) then acc :: lines "" rest
      else lines (acc ++ String c "")%string rest
  end.

Fixpoint keys (props : list (string * JsValue)) : list string :=
  match props with
  | [] => []
  | (k, _) :: rest => k :: keys rest
  end.

(** Modelled from the spec: [./tracekit] and [./parsers] are not under src/.
    Stack computation maps a raw exception to an ordered list of raw frames:
    here one frame for each line of the [stack] property after its heading
    line, and none when the value has no [stack]. The event built from a trace
    holds one exception with those frames; a plain object gets a message that
    summarizes its top-level keys. *)
Definition sample_computeStackTrace (v : JsValue) : TraceKitStackTrace :=
  {| tk_name := match get v "name" with JsString n => Some n | _ => None end;
     tk_message := match get v "message" with JsString m => m | _ => "" end;
     stack := match get v "stack" with
              | JsString st =>
                  map (fun l => {| url := ""; func := l; line := 0; column := 0 |})
                      (tl (lines "" st))
              | _ => []
              end |}.

Definition sample_prepareFramesForEvent (st : list TraceKitStackFrame) : list StackFrame :=
  map (fun f => {| filename := url f; function := func f;
                   lineno := line f; colno := column f |}) st.

Definition sample_eventFromStacktrace (t : TraceKitStackTrace) : SentryEvent :=
  {| message := None;
     exception :=
       Some {| values := Some [ {| ex_type := tk_name t;
                                   ex_value := tk_message t;
                                   ex_frames := sample_prepareFramesForEvent (stack t) |} ];
               mechanism := None |};
     fingerprint := None;
     stacktrace := None;
     transaction := None |}.

Definition sample_getEventOptionsFromPlainObject (v : JsValue) : SentryEvent :=
  {| message :=
       Some ("Non-Error exception captured with keys: "
             ++ String.concat ", " (match v with JsObject _ props => keys props | _ => [] end))%string;
     exception := None; fingerprint := None; stacktrace := None; transaction := None |}.

Definition sample_objectToString (cls : ObjClass) (props : list (string * JsValue)) : string :=
  match cls with
  | ClsObject => "[object Object]"
  | ClsError => "[object Error]"
  | ClsErrorEvent => "[object ErrorEvent]"
  | ClsDOMError => "[object DOMError]"
  | ClsDOMException => "[object DOMException]"
  | ClsOther => "[object Other]"
  end.

(** The digits of the numbers that the values below leave to the runtime. *)
Definition sample_numberToString (n : spec_float) : string :=
  match n with
  | S754_finite false 1 (-1) => "0.5"
  | S754_finite false 1000000000000000000000 0 => "1e+21"
  | _ => "NaN"
  end.

Definition sample_stackAt (site : Site) (msg : string) : string :=
  ("Error: " ++ msg ++ LF ++
   match site with
   | InEventFromException => "    at BrowserBackend.eventFromException"
   | InEventFromMessage => "    at BrowserBackend.eventFromMessage"
   end)%string.

Definition parsers : Parsers :=
  {| computeStackTrace := sample_computeStackTrace;
     eventFromStacktrace := sample_eventFromStacktrace;
     prepareFramesForEvent := sample_prepareFramesForEvent;
     getEventOptionsFromPlainObject := sample_getEventOptionsFromPlainObject;
     objectToString := sample_objectToString;
     numberToString := sample_numberToString;
     stackAt := sample_stackAt |}.

(** A runtime that parses every DSN string, has fetch or not as told, and
    whose transports deliver. *)
Definition runtime (fetch : bool) : Runtime :=
  {| newDSN := fun s => Returned (mkDSN s);
     supportsFetch := fetch;
     transportSend := fun _ _ _ => Resolved {| status := Success; code := Some 200%Z |} |}.

(** Values to evaluate on. *)
Definition an_event (m : string) : SentryEvent :=
  {| message := Some m; exception := None; fingerprint := None;
     stacktrace := None; transaction := None |}.

Definition a_crumb (m : string) : Breadcrumb :=
  {| crumb_category := "console"; crumb_message := m |}.

(** [{code: 42, reason: "x"}] *)
Definition plain_object : JsValue :=
  JsObject ClsObject [("code", JsNumber (num 42)); ("reason", JsString "x")].

(** [new TypeError("bad")], with the stack the engine recorded. *)
Definition type_error : JsValue :=
  JsObject ClsError
    [("name", JsString "TypeError"); ("message", JsString "bad");
     ("stack", JsString ("TypeError: bad" ++ LF ++ "    at main (app.js:1:1)")%string)].

(** An [Error] on an engine that records no stack. *)
Definition stackless_error : JsValue :=
  JsObject ClsError [("name", JsString "Error"); ("message", JsString "bad")].

(** A [DOMException] with name and message. *)
Definition dom_exception : JsValue :=
  JsObject ClsDOMException
    [("name", JsString "SecurityError"); ("message", JsString "denied")].

End Sample.

(** ** The rest of the two adapters *)

Module Bridge.
Import Node.

(** Whether an operation calls back into [capture] before it ends. *)
Fixpoint reenters (op : Op) : bool :=
  match op with
  | Return | Throw _ => false
  | FireSend _ k | FireBreadcrumb _ k => reenters k
  | Reenter _ _ => true
  end.

(** What the hooks pass to the client for a list of artifacts when nothing
    is being captured. *)
Fixpoint forwards (l : list Artifact) : list Effect :=
  match l with
  | [] => []
  | AnEvent e :: l' => ClientSend e :: forwards l'
  | ACrumb b :: l' => ClientCaptureBreadcrumb b :: forwards l'
  end.

Section Options.
(** The values that options hold: [any]. *)
Variable V : Type.

(** An object as its own properties in insertion order, each key once. *)
Definition Obj : Type := list (string * V).

Definition keys (o : Obj) : list string := map fst o.

(** [o[key]] *)
Fixpoint prop (key : string) (o : Obj) : option V :=
  match o with
  | [] => None
  | (k, v) :: rest => if String.eqb k key then Some v else prop key rest
  end.

(** [o[key] = v]: an existing key keeps its place, a new one goes last. *)
Fixpoint assign1 (key : string) (v : V) (o : Obj) : Obj :=
  match o with
  | [] => [(key, v)]
  | (k, v') :: rest =>
      if String.eqb k key then (k, v) :: rest
      else (k, v') :: assign1 key v rest
  end.

(** [Object.assign(target, source)] *)
Definition Object_assign (target source : Obj) : Obj :=
  fold_left (fun t kv => assign1 (fst kv) (snd kv) t) source target.

(** [public setOptions(options)], on [this.options] and the [Raven] object:
    it gives back the resolved promise and the two objects as it leaves
    them. *)
Definition setOptions (options : Obj) (this_options Raven : Obj)
  : Promise unit * Obj * Obj :=
  let this_options := Object_assign this_options options in
  let Raven := Object_assign Raven this_options in
  (Resolved tt, this_options, Raven).

End Options.

End Bridge.

Module Install.
Import Browser.

(** What [install] does to the [Raven] global and to [Error], in order. *)
Inductive RavenCall :=
| RavenConfig (dsn : string) (options : BrowserOptions)  (* Raven.config(dsn, this.options) *)
| SetIsRavenInstalled (b : bool)                         (* Raven._isRavenInstalled = true *)
| SetStackTraceLimit                                     (* Error.stackTraceLimit = ... *)
| SetBreadcrumbCallback                                  (* Raven.setBreadcrumbCallback(...) *)
| SetSendProcessedPayload.                               (* Raven._sendProcessedPayload = captureEvent *)

(** [public install()]; [ravenConfig] is how the engine's [Raven.config]
    ends on a DSN string and options. *)
Definition install (ravenConfig : string -> BrowserOptions -> Res unit)
    (options : BrowserOptions) : Res bool * list RavenCall :=
  match dsn options with
  | None =>
      (Threw (SentryError "Invariant exception: install() must not be called when disabled"), [])
  | Some d =>
      if String.eqb d "" then
        (Threw (SentryError "Invariant exception: install() must not be called when disabled"), [])
      else
        match ravenConfig d options with
        | Threw e => (Threw e, [RavenConfig d options])
        | Returned _ =>
            (Returned true,
             [RavenConfig d options; SetIsRavenInstalled true; SetStackTraceLimit;
              SetBreadcrumbCallback; SetSendProcessedPayload])
        end
  end.

End Install.

Module Fixtures.
Import Browser.

(** A runtime whose DSN constructor accepts only [https://] strings. *)
Definition strict_runtime : Runtime :=
  {| newDSN := fun s =>
       if String.prefix "https://" s then Returned (mkDSN s)
       else Threw (SentryError "Invalid DSN");
     supportsFetch := true;
     transportSend := fun _ _ _ => Resolved {| status := Success; code := Some 200%Z |} |}.

(** A [DOMError] with neither name nor message. *)
Definition bare_dom_error : JsValue := JsObject ClsDOMError [].

(** An [ErrorEvent] that wraps [new TypeError("bad")]. *)
Definition error_event : JsValue :=
  JsObject ClsErrorEvent [("error", Sample.type_error)].

End Fixtures.

(** ** The capture bridge *)

Module NodeFacts.
Import Node Bridge.

(** [capture] in one step: what the callback does from [entry], then the
    read-and-clear, which a throwing callback never reaches. *)
Lemma capture_unfold (callback : M unit) (s : SentryNode) :
  capture callback s =
  match callback (entry s) with
  | (Returned _, s1, w) =>
      (match captured s1 with
       | None => Threw (Error "Could not capture.")
       | Some a => Returned a
       end,
       {| capturing := false; captured := None; client_dsn := client_dsn s1 |}, w)
  | (Threw e, s1, w) => (Threw e, s1, w)
  end.
Proof.
  unfold capture, bind, put_captured, put_capturing, get_captured,
    set_captured, set_capturing, entry; simpl.
  destruct (callback _) as [[[u|e] s1] w]; simpl; [|reflexivity].
  destruct (captured s1); simpl; rewrite app_nil_r; reflexivity.
Qed.

Lemma bind_unfold {A B} (m : M A) (f : A -> M B) (s : SentryNode) :
  bind m f s =
  match m s with
  | (Returned a, s1, w1) =>
      (fst (fst (f a s1)), snd (fst (f a s1)), w1 ++ snd (f a s1))
  | (Threw e, s1, w1) => (Threw e, s1, w1)
  end.
Proof.
  unfold bind. destruct (m s) as [[[a|e] s1] w1]; [|reflexivity].
  destruct (f a s1) as [[r s2] w2]; reflexivity.
Qed.

(** No hook and no nested call touches the client's DSN. *)
Lemma run_client_dsn (op : Op) :
  forall s r s1 w, run op s = (r, s1, w) -> client_dsn s1 = client_dsn s.
Proof.
  induction op as [|e|event k IH|crumb k IH|inner IHi k IHk];
    intros s r s1 w Hr; simpl in Hr.
  - inversion Hr; reflexivity.
  - inversion Hr; reflexivity.
  - rewrite bind_unfold in Hr.
    unfold interceptRavenSend, bind, get_capturing, put_captured, emit in Hr.
    destruct (capturing s); simpl in Hr;
      destruct (run k _) as [[r' s'] w'] eqn:E; apply IH in E;
      inversion Hr; subst; exact E.
  - rewrite bind_unfold in Hr.
    unfold interceptRavenBreadcrumb, bind, get_capturing, put_captured, emit in Hr.
    destruct (capturing s); simpl in Hr;
      destruct (run k _) as [[r' s'] w'] eqn:E; apply IH in E;
      inversion Hr; subst; exact E.
  - rewrite bind_unfold, capture_unfold in Hr.
    destruct (run inner (entry s)) as [[[u|e] s2] w2] eqn:Ei; apply IHi in Ei;
      unfold entry in Ei; simpl in Ei.
    + destruct (captured s2).
      * destruct (run k _) as [[r' s'] w'] eqn:Ek; apply IHk in Ek.
        simpl in Hr. inversion Hr; subst. simpl in Ek. congruence.
      * inversion Hr; subst. exact Ei.
    + inversion Hr; subst. exact Ei.
Qed.

Lemma capture_client_dsn (op : Op) (s : SentryNode) :
  client_dsn (snd (fst (capture (run op) s))) = client_dsn s.
Proof.
  rewrite capture_unfold.
  destruct (run op (entry s)) as [[[u|e] s1] w] eqn:E;
    apply run_client_dsn in E; simpl; exact E.
Qed.

(** [capture] overwrites both fields before the callback runs, so its
    outcome does not depend on what they held. *)
Lemma capture_entry (callback : M unit) (s s' : SentryNode) :
  client_dsn s = client_dsn s' -> capture callback s = capture callback s'.
Proof.
  intro H. rewrite !capture_unfold. unfold entry. rewrite H. reflexivity.
Qed.

(** An operation that fires no hook and returns leaves the slot as it was. *)
Lemma run_no_firings (op : Op) :
  forall s u s1 w,
    firings op = [] -> run op s = (Returned u, s1, w) -> captured s1 = captured s.
Proof.
  induction op as [|e|event k IH|crumb k IH|inner IHi k IHk];
    intros s u s1 w Hf Hr; simpl in *; try discriminate.
  - inversion Hr; reflexivity.
  - apply app_eq_nil in Hf. destruct Hf as [Hfi Hfk].
    rewrite bind_unfold, capture_unfold in Hr.
    destruct (run inner (entry s)) as [[[u'|e] s2] w2] eqn:E; [|discriminate].
    apply (IHi _ _ _ _ Hfi) in E. simpl in E. rewrite E in Hr.
    discriminate.
Qed.

(** While [capturing] holds, an operation that only fires hooks stores each
    artifact over the one before and records each breadcrumb in the engine. *)
Lemma run_fires_only (op : Op) :
  forall s,
    fires_only op = true -> capturing s = true ->
    run op s =
    (Returned tt,
     {| capturing := true; captured := slot_after (captured s) (firings op);
        client_dsn := client_dsn s |},
     recordings (firings op)).
Proof.
  induction op as [|e|event k IH|crumb k IH|inner IHi k IHk];
    intros s Hf Hc; simpl in *; try discriminate.
  - unfold ret. destruct s; simpl in *; subst; reflexivity.
  - unfold bind at 1. unfold interceptRavenSend, bind, get_capturing, put_captured.
    rewrite Hc; simpl. rewrite IH by (simpl; auto). reflexivity.
  - unfold bind at 1. unfold interceptRavenBreadcrumb, bind, get_capturing,
      put_captured, emit.
    rewrite Hc; simpl. rewrite IH by (simpl; auto). reflexivity.
Qed.

Lemma slot_after_last (init : option Artifact) (l : list Artifact) (a : Artifact) :
  slot_after init (l ++ [a]) = Some a.
Proof. unfold slot_after. rewrite fold_left_app. reflexivity. Qed.

(** Without a nested call, and started while [capturing] is set, an
    operation leaves the flag set and in the slot the artifact fired last,
    whether it returns or throws. *)
Lemma run_without_reentry (op : Op) :
  forall s r s1 w,
    reenters op = false -> capturing s = true ->
    run op s = (r, s1, w) ->
    capturing s1 = true /\ captured s1 = slot_after (captured s) (firings op).
Proof.
  induction op as [|e|event k IH|crumb k IH|inner IHi k IHk];
    intros s r s1 w Hre Hc Hr; simpl in *; try discriminate.
  - inversion Hr; subst; auto.
  - inversion Hr; subst; auto.
  - rewrite bind_unfold in Hr.
    unfold interceptRavenSend, bind, get_capturing, put_captured in Hr.
    rewrite Hc in Hr. simpl in Hr.
    destruct (run k _) as [[r' s'] w'] eqn:E.
    eapply IH in E; [|exact Hre|simpl; exact Hc].
    simpl in Hr, E. inversion Hr; subst. exact E.
  - rewrite bind_unfold in Hr.
    unfold interceptRavenBreadcrumb, bind, get_capturing, put_captured, emit in Hr.
    rewrite Hc in Hr. simpl in Hr.
    destruct (run k _) as [[r' s'] w'] eqn:E.
    eapply IH in E; [|exact Hre|simpl; exact Hc].
    simpl in Hr, E. inversion Hr; subst. exact E.
Qed.

(** C1 (as amended). A bridged call whose operation returns ends with
    [capturing = false] and the slot empty, whether it hands back an artifact
    or fails for want of one. When the operation throws, [capture] throws the
    same error and leaves the fields as they were at the throw: after an
    operation without nested calls, [capturing] is still set and the slot
    holds the artifact fired last, if any. Every call clears the slot before
    its operation runs, so a call made after any other call, whatever that
    one's outcome, behaves as on a new adapter and returns nothing of the
    earlier one. *)
Theorem capture_clears_slot (op1 op2 : Op) (s : SentryNode) :
  (forall u s1 w,
      run op1 (entry s) = (Returned u, s1, w) ->
      exists r, capture (run op1) s = (r, fresh (client_dsn s), w)) /\
  (forall e s1 w,
      run op1 (entry s) = (Threw e, s1, w) ->
      capture (run op1) s = (Threw e, s1, w) /\
      (reenters op1 = false ->
       capturing s1 = true /\ captured s1 = slot_after None (firings op1))) /\
  capture (run op2) (snd (fst (capture (run op1) s)))
  = capture (run op2) (fresh (client_dsn s)).
Proof.
  split; [|split].
  - intros u s1 w Hr. rewrite capture_unfold, Hr.
    apply run_client_dsn in Hr. simpl in Hr. rewrite Hr.
    eexists. reflexivity.
  - intros e s1 w Hr. split.
    + rewrite capture_unfold, Hr. reflexivity.
    + intro Hre. exact (run_without_reentry op1 (entry s) Hre eq_refl Hr).
  - apply capture_entry. rewrite capture_client_dsn. reflexivity.
Qed.

Lemma capture_clears_slot_witness :
  (exists r,
      capture (run (FireSend (Sample.an_event "a") Return)) (fresh None)
      = (r, fresh None, [])) /\
  (capture (run (FireSend (Sample.an_event "a") (Throw (Error "boom")))) (fresh None)
   = (Threw (Error "boom"),
      mkNode true (Some (AnEvent (Sample.an_event "a"))) None, []) /\
   capturing (mkNode true (Some (AnEvent (Sample.an_event "a"))) None) = true /\
   captured (mkNode true (Some (AnEvent (Sample.an_event "a"))) None)
   = Some (AnEvent (Sample.an_event "a"))) /\
  capture (run (FireSend (Sample.an_event "b") Return))
    (snd (fst (capture (run (FireSend (Sample.an_event "a") Return)) (fresh None))))
  = capture (run (FireSend (Sample.an_event "b") Return)) (fresh None).
Proof.
  destruct (capture_clears_slot
              (FireSend (Sample.an_event "a") Return)
              (FireSend (Sample.an_event "b") Return) (fresh None)) as (H1 & _ & H3).
  destruct (capture_clears_slot
              (FireSend (Sample.an_event "a") (Throw (Error "boom")))
              Return (fresh None)) as (_ & H2 & _).
  destruct (H2 (Error "boom")
              (mkNode true (Some (AnEvent (Sample.an_event "a"))) None) []
              eq_refl) as (H4 & H5).
  split; [|split; [split|]].
  - exact (H1 tt _ _ eq_refl).
  - exact H4.
  - exact (H5 eq_refl).
  - exact H3.
Defined.

(** C1, as stated, fails when the operation throws: the error leaves
    [capture] before the read-and-clear, so [capturing] stays set and the slot
    keeps the event that was stored. *)
Lemma capture_throwing_operation_keeps_state :
  capture (run (FireSend (Sample.an_event "a") (Throw (Error "boom")))) (fresh None)
  = (Threw (Error "boom"),
     {| capturing := true; captured := Some (AnEvent (Sample.an_event "a"));
        client_dsn := None |},
     []).
Proof. reflexivity. Qed.

(** C3. When the operation returns and the slot is still empty, as it is
    when no hook has fired, [capture] throws [Error('Could not capture.')] to
    its caller and returns no value. *)
Theorem capture_fails_without_artifact (op : Op) (s : SentryNode) u s1 w :
  run op (entry s) = (Returned u, s1, w) ->
  firings op = [] \/ captured s1 = None ->
  capture (run op) s = (Threw (Error "Could not capture."), fresh (client_dsn s), w).
Proof.
  intros Hr He.
  assert (Hs : captured s1 = None).
  { destruct He as [Hf|Hs]; [|exact Hs].
    apply (run_no_firings _ _ Hf) in Hr. exact Hr. }
  rewrite capture_unfold, Hr, Hs.
  apply run_client_dsn in Hr. simpl in Hr. rewrite Hr. reflexivity.
Qed.

Lemma capture_fails_without_artifact_witness :
  capture (run Return) (fresh None)
  = (Threw (Error "Could not capture."), fresh None, []).
Proof.
  apply (@capture_fails_without_artifact Return (fresh None) tt (entry (fresh None)) []).
  - reflexivity.
  - left. reflexivity.
Defined.

(** C4. Hook routing. With [capturing] set the send hook stores the event and
    forwards nothing, and the breadcrumb hook has the engine record the
    breadcrumb and stores it. With [capturing] clear the send hook forwards the
    event to [client.send], the breadcrumb hook forwards the breadcrumb to
    [client.captureBreadcrumb], and neither touches the slot. *)
Theorem hook_routing (event : SentryEvent) (crumb : Breadcrumb)
    (slot : option Artifact) (d : option string) :
  interceptRavenSend event (mkNode true slot d)
  = (Returned tt, mkNode true (Some (AnEvent event)) d, []) /\
  interceptRavenSend event (mkNode false slot d)
  = (Returned tt, mkNode false slot d, [ClientSend event]) /\
  interceptRavenBreadcrumb crumb (mkNode true slot d)
  = (Returned tt, mkNode true (Some (ACrumb crumb)) d, [RavenCaptureBreadcrumb crumb]) /\
  interceptRavenBreadcrumb crumb (mkNode false slot d)
  = (Returned tt, mkNode false slot d, [ClientCaptureBreadcrumb crumb]).
Proof. repeat split. Qed.

(** C10. When the operation fires the hooks several times, all while
    [capturing] is set, and returns, [capture] returns the artifact of the last
    firing and throws nothing: the earlier artifacts are overwritten in the
    slot, and all that is left of them are the engine's recordings of the
    breadcrumbs among them. *)
Theorem capture_returns_last_firing (op : Op) (s : SentryNode)
    (earlier : list Artifact) (last : Artifact) :
  fires_only op = true ->
  firings op = earlier ++ [last] ->
  capture (run op) s
  = (Returned last, fresh (client_dsn s), recordings (firings op)).
Proof.
  intros Hf Hl.
  rewrite capture_unfold, (run_fires_only op (entry s) Hf eq_refl).
  simpl. rewrite Hl, slot_after_last. reflexivity.
Qed.

Lemma capture_returns_last_firing_witness :
  capture
    (run (FireSend (Sample.an_event "first")
            (FireBreadcrumb (Sample.a_crumb "click")
               (FireSend (Sample.an_event "last") Return))))
    (fresh None)
  = (Returned (AnEvent (Sample.an_event "last")), fresh None,
     [RavenCaptureBreadcrumb (Sample.a_crumb "click")]).
Proof.
  exact (@capture_returns_last_firing
           (FireSend (Sample.an_event "first")
              (FireBreadcrumb (Sample.a_crumb "click")
                 (FireSend (Sample.an_event "last") Return)))
           (fresh None)
           [AnEvent (Sample.an_event "first"); ACrumb (Sample.a_crumb "click")]
           (AnEvent (Sample.an_event "last")) eq_refl eq_refl).
Defined.

End NodeFacts.

(** ** The event normalizer and the transport dispatch *)

Module BrowserFacts.
Import Browser.

Section NormalizerFacts.
Context {P : Parsers}.

(** [eventFromException] by the shape of its input. *)
Lemma eventFromException_classify (x : JsValue) :
  eventFromException x =
  match classify x with
  | WrappedEvent => eventFromError (get x "error")
  | DomLegacyError =>
      let name :=
        jsOr (get x "name")
             (JsString (if isDOMError x then "DOMError" else "DOMException")) in
      eventFromMessage
        (if truthy (get x "message")
         then JsString (ToString name ++ ": " ++ ToString (get x "message"))%string
         else name)
  | StandardError => eventFromError x
  | PlainRecord =>
      eventFromError
        (newError InEventFromException
           (match message (getEventOptionsFromPlainObject x) with
            | Some m => m
            | None => ""
            end))
  | Other => eventFromMessage x
  end.
Proof.
  unfold eventFromException, classify.
  destruct (isErrorEvent x && truthy (get x "error")); [reflexivity|].
  destruct (isDOMError x || isDOMException x); [reflexivity|].
  destruct (isError x); [reflexivity|].
  destruct (isPlainObject x); reflexivity.
Qed.

Lemma classify_dom (x : JsValue) :
  isDOMError x = true \/ isDOMException x = true -> classify x = DomLegacyError.
Proof.
  destruct x as [| | | | |[] props]; simpl; intros [H|H]; try discriminate;
    reflexivity.
Qed.

Lemma classify_plain (x : JsValue) :
  isPlainObject x = true -> classify x = PlainRecord.
Proof.
  destruct x as [| | | | |[] props]; simpl; intro H; try discriminate;
    reflexivity.
Qed.

(** The message path yields a message, its fingerprint and a stack trace, and
    no exception descriptor. *)
Lemma eventFromMessage_shape (v : JsValue) :
  exists frames,
    eventFromMessage v =
    Resolved {| message := Some (ToString v);
                exception := None;
                fingerprint := Some [ToString v];
                stacktrace := Some frames;
                transaction := None |}.
Proof. eexists. reflexivity. Qed.

(** The exception path yields a descriptor with the frames of the event that
    the collaborators built, under the generic handled mechanism. *)
Lemma eventFromError_shape (v : JsValue) :
  exists ev d,
    eventFromError v = Resolved ev /\
    exception ev = Some d /\
    mechanism d = Some {| handled := true; mechanism_type := "generic" |} /\
    descriptor_frames d
    = exception_frames (eventFromStacktrace (computeStackTrace v)).
Proof.
  unfold eventFromError. do 2 eexists. split; [reflexivity|].
  simpl. split; [reflexivity|]. split; [reflexivity|].
  unfold exception_frames, descriptor_frames, withMechanism; simpl.
  destruct (exception (eventFromStacktrace (computeStackTrace v))); reflexivity.
Qed.

(** C2 (as amended). A legacy DOM error shape or a string yields an event
    with a message and a stack trace and no exception descriptor. A plain
    data object does not: it is replaced by a new [Error] whose message is the
    one that [getEventOptionsFromPlainObject] derives, and that error takes
    the exception path, so the event has an exception descriptor with the
    frames computed for that error, under the mechanism
    [{handled: true, type: 'generic'}]. *)
Theorem eventFromException_without_stack (x : JsValue) :
  (isDOMError x = true \/ isDOMException x = true \/ (exists s, x = JsString s) ->
   exists m frames,
     eventFromException x =
     Resolved {| message := Some m;
                 exception := None;
                 fingerprint := Some [m];
                 stacktrace := Some frames;
                 transaction := None |}) /\
  (isPlainObject x = true ->
   let m := match message (getEventOptionsFromPlainObject x) with
            | Some m => m
            | None => ""
            end in
   let error := newError InEventFromException m in
   isError error = true /\
   get error "message" = JsString m /\
   exists ev d,
     eventFromException x = Resolved ev /\
     exception ev = Some d /\
     mechanism d = Some {| handled := true; mechanism_type := "generic" |} /\
     descriptor_frames d
     = exception_frames (eventFromStacktrace (computeStackTrace error)) /\
     message ev = message (eventFromStacktrace (computeStackTrace error)) /\
     stacktrace ev = stacktrace (eventFromStacktrace (computeStackTrace error))).
Proof.
  split.
  - intros [H|[H|[s ->]]].
    + rewrite eventFromException_classify, classify_dom by (left; exact H).
      cbv zeta. eexists. apply eventFromMessage_shape.
    + rewrite eventFromException_classify, classify_dom by (right; exact H).
      cbv zeta. eexists. apply eventFromMessage_shape.
    + eexists. apply (eventFromMessage_shape (JsString s)).
  - intros H m error. split; [reflexivity|]. split; [reflexivity|].
    rewrite eventFromException_classify, classify_plain by exact H.
    fold m. fold error.
    destruct (eventFromError_shape error) as (ev & d & H1 & H2 & H3 & H4).
    exists ev, d. repeat split; try assumption.
    + unfold eventFromError in H1. inversion H1. reflexivity.
    + unfold eventFromError in H1. inversion H1. reflexivity.
Qed.


(** C9 (as amended). For a standard error object, [eventFromException]
    resolves to an event whose exception descriptor holds the frame list that
    the stack-computation collaborators produced for that error, under the
    mechanism [{handled: true, type: 'generic'}]; the list is non-empty when
    theirs is. *)
Theorem eventFromException_standard_error (x : JsValue) :
  classify x = StandardError ->
  exists ev d,
    eventFromException x = Resolved ev /\
    exception ev = Some d /\
    mechanism d = Some {| handled := true; mechanism_type := "generic" |} /\
    descriptor_frames d
    = exception_frames (eventFromStacktrace (computeStackTrace x)) /\
    (exception_frames (eventFromStacktrace (computeStackTrace x)) <> [] ->
     descriptor_frames d <> []).
Proof.
  intro H. rewrite eventFromException_classify, H.
  destruct (eventFromError_shape x) as (ev & d & H1 & H2 & H3 & H4).
  exists ev, d. repeat split; auto. rewrite H4. auto.
Qed.

End NormalizerFacts.

Lemma eventFromException_without_stack_witness :
  (exists m frames,
      @eventFromException Sample.parsers Sample.dom_exception =
      Resolved {| message := Some m;
                  exception := None;
                  fingerprint := Some [m];
                  stacktrace := Some frames;
                  transaction := None |}) /\
  (exists ev d,
      @eventFromException Sample.parsers Sample.plain_object = Resolved ev /\
      exception ev = Some d /\
      mechanism d = Some {| handled := true; mechanism_type := "generic" |} /\
      descriptor_frames d
      = [ {| filename := ""; function := "    at BrowserBackend.eventFromException";
             lineno := 0; colno := 0 |} ]).
Proof.
  split.
  - apply (proj1 (@eventFromException_without_stack Sample.parsers Sample.dom_exception)).
    right; left. reflexivity.
  - destruct (proj2 (@eventFromException_without_stack Sample.parsers Sample.plain_object)
                eq_refl) as (_ & _ & ev & d & H1 & H2 & H3 & H4 & _).
    exists ev, d. repeat split; try assumption.
Defined.

(** C2, as stated, fails on the plain object [{code: 42, reason: "x"}]: its
    event has an exception descriptor, and neither a message nor a stack trace
    of its own. *)
Lemma plain_object_has_exception_descriptor :
  exists ev d,
    @eventFromException Sample.parsers Sample.plain_object = Resolved ev /\
    isPlainObject Sample.plain_object = true /\
    exception ev = Some d /\
    message ev = None /\
    stacktrace ev = None.
Proof. do 2 eexists. repeat split. Qed.

Lemma eventFromException_standard_error_witness :
  exists ev d,
    @eventFromException Sample.parsers Sample.type_error = Resolved ev /\
    exception ev = Some d /\
    mechanism d = Some {| handled := true; mechanism_type := "generic" |} /\
    descriptor_frames d <> [].
Proof.
  destruct (@eventFromException_standard_error Sample.parsers Sample.type_error eq_refl)
    as (ev & d & H1 & H2 & H3 & H4 & H5).
  exists ev, d. repeat split; try assumption.
  apply H5. discriminate.
Defined.

(** C9, as stated, fails on an [Error] for which stack computation finds no
    frame: the descriptor is there, with the mechanism, and its frame list is
    empty. *)
Lemma stackless_error_has_no_frames :
  exists ev d,
    @eventFromException Sample.parsers Sample.stackless_error = Resolved ev /\
    classify Sample.stackless_error = StandardError /\
    exception ev = Some d /\
    descriptor_frames d = [].
Proof. do 2 eexists. repeat split. Qed.

Section DispatchFacts.
Context {R : Runtime}.

(** [sendEvent] once the DSN is there and parses: the class and the options
    of the one transport it builds and sends with. *)
Lemma sendEvent_with_dsn (options : BrowserOptions) (event : SentryEvent)
    (d : string) (parsed : DSN) :
  dsn options = Some d -> d <> "" -> newDSN d = Returned parsed ->
  let c := selectTransport (transport options) supportsFetch in
  let o := match transport options with
           | Some _ => {| to_dsn := parsed; to_fields := [] |}
           | None => resolvedOptions (transportOptions options) parsed
           end in
  sendEvent options event
  = (transportSend c o event, [New c o; TransportSend c o event]).
Proof.
  intros Hd Hne Hp. unfold sendEvent. rewrite Hd.
  apply String.eqb_neq in Hne. rewrite Hne, Hp.
  unfold selectTransport, resolvedOptions.
  destruct (transport options); [reflexivity|].
  destruct supportsFetch; reflexivity.
Qed.

(** C5 (as amended). The browser backend's [sendEvent], with the DSN unset
    or empty, rejects with [SentryError('Cannot sendEvent without a valid
    DSN')] and neither builds a transport nor sends. The Node adapter's
    [send] has no such check: it hands the event to the engine's original
    send and settles from that call's error-first callback. *)
Theorem sendEvent_requires_dsn (options : BrowserOptions) (event : SentryEvent) :
  (dsn_missing (dsn options) = true ->
   sendEvent options event
   = (Rejected (SentryError "Cannot sendEvent without a valid DSN"), [])) /\
  (forall (sendRavenEvent : SentryEvent -> option Exn) (s : Node.SentryNode),
      Node.send sendRavenEvent event s
      = (match sendRavenEvent event with
         | Some error => Rejected error
         | None => Resolved tt
         end, s, [Node.RavenSend event])).
Proof.
  split.
  - unfold dsn_missing, sendEvent. destruct (dsn options) as [d|]; [|reflexivity].
    intro H. rewrite H. reflexivity.
  - reflexivity.
Qed.

(** C6. With a DSN, [sendEvent] builds one transport, of the class that
    [selectTransport] gives for the explicit class, if any, and the fetch
    capability: the explicit class when there is one, else [FetchTransport]
    with fetch and [XHRTransport] without. It then sends with that transport
    and does nothing else. *)
Theorem sendEvent_selects_transport (options : BrowserOptions) (event : SentryEvent)
    (d : string) (parsed : DSN) :
  dsn options = Some d -> d <> "" -> newDSN d = Returned parsed ->
  let c := selectTransport (transport options) supportsFetch in
  (exists o,
      sendEvent options event
      = (transportSend c o event, [New c o; TransportSend c o event])) /\
  c = match transport options, supportsFetch with
      | Some custom, _ => custom
      | None, true => FetchTransport
      | None, false => XHRTransport
      end.
Proof.
  intros Hd Hne Hp c. split.
  - eexists. apply (sendEvent_with_dsn options event Hd Hne Hp).
  - subst c. unfold selectTransport.
    destruct (transport options); [reflexivity|].
    destruct supportsFetch; reflexivity.
Qed.

End DispatchFacts.

Lemma sendEvent_requires_dsn_witness :
  @sendEvent (Sample.runtime true) (mkOptions None None None) (Sample.an_event "m")
  = (Rejected (SentryError "Cannot sendEvent without a valid DSN"), []).
Proof.
  apply (proj1 (@sendEvent_requires_dsn (Sample.runtime true)
                  (mkOptions None None None) (Sample.an_event "m"))).
  reflexivity.
Defined.

(** C5, as stated, fails for the Node adapter: with no DSN on the client,
    [send] reaches the engine's original send and resolves when that reports
    no error. *)
Lemma node_send_without_dsn :
  Node.send (fun _ => None) (Sample.an_event "m") (Node.fresh None)
  = (Resolved tt, Node.fresh None, [Node.RavenSend (Sample.an_event "m")]).
Proof. reflexivity. Qed.

Lemma sendEvent_selects_transport_witness :
  exists o,
    @sendEvent (Sample.runtime false)
      (mkOptions (Some "https://public@sentry.example.com/1") None None)
      (Sample.an_event "m")
    = (Resolved {| status := Success; code := Some 200%Z |},
       [New XHRTransport o; TransportSend XHRTransport o (Sample.an_event "m")]).
Proof.
  apply (proj1 (@sendEvent_selects_transport (Sample.runtime false)
                  (mkOptions (Some "https://public@sentry.example.com/1") None None)
                  (Sample.an_event "m")
                  "https://public@sentry.example.com/1"
                  (mkDSN "https://public@sentry.example.com/1")
                  eq_refl ltac:(discriminate) eq_refl)).
Defined.

(** C7 fails for an explicit transport class: with [transportOptions] given,
    [FetchTransport] and [XHRTransport] are built from them, the explicit
    class from the default [{ dsn }]. *)
Lemma explicit_transport_gets_default_options :
  let parsed := mkDSN "https://public@sentry.example.com/1" in
  let given := {| to_dsn := parsed; to_fields := [("timeout", "2000")] |} in
  let default := {| to_dsn := parsed; to_fields := [] |} in
  let options c :=
    mkOptions (Some "https://public@sentry.example.com/1") c (Some given) in
  let event := Sample.an_event "m" in
  snd (@sendEvent (Sample.runtime true) (options (Some (CustomTransport "MyTransport"))) event)
  = [New (CustomTransport "MyTransport") default;
     TransportSend (CustomTransport "MyTransport") default event] /\
  snd (@sendEvent (Sample.runtime true) (options None) event)
  = [New FetchTransport given; TransportSend FetchTransport given event] /\
  snd (@sendEvent (Sample.runtime false) (options None) event)
  = [New XHRTransport given; TransportSend XHRTransport given event] /\
  resolvedOptions (Some given) parsed = given /\
  default <> given.
Proof. repeat split. discriminate. Qed.

End BrowserFacts.

(** ** More on the capture bridge *)

Module BridgeFacts.
Import Node Bridge NodeFacts.

Lemma interceptRavenSend_idle (event : SentryEvent) (s : SentryNode) :
  capturing s = false ->
  interceptRavenSend event s = (Returned tt, s, [ClientSend event]).
Proof.
  intro H. unfold interceptRavenSend, bind, get_capturing, emit.
  rewrite H. reflexivity.
Qed.

Lemma interceptRavenBreadcrumb_idle (crumb : Breadcrumb) (s : SentryNode) :
  capturing s = false ->
  interceptRavenBreadcrumb crumb s = (Returned tt, s, [ClientCaptureBreadcrumb crumb]).
Proof.
  intro H. unfold interceptRavenBreadcrumb, bind, get_capturing, emit.
  rewrite H. reflexivity.
Qed.

(** A hook returns, whatever the state, and keeps [capturing]. *)
Lemma interceptRavenSend_returns (event : SentryEvent) (s : SentryNode) :
  exists s1 w,
    interceptRavenSend event s = (Returned tt, s1, w) /\
    capturing s1 = capturing s.
Proof.
  unfold interceptRavenSend, bind, get_capturing, put_captured, emit.
  destruct (capturing s) eqn:E; simpl; do 2 eexists; split;
    try reflexivity; simpl; auto.
Qed.

Lemma interceptRavenBreadcrumb_returns (crumb : Breadcrumb) (s : SentryNode) :
  exists s1 w,
    interceptRavenBreadcrumb crumb s = (Returned tt, s1, w) /\
    capturing s1 = capturing s.
Proof.
  unfold interceptRavenBreadcrumb, bind, get_capturing, put_captured, emit.
  destruct (capturing s) eqn:E; simpl; do 2 eexists; split;
    try reflexivity; simpl; auto.
Qed.

(** What [bind] returned, its two parts returned. *)
Lemma bind_returned {A B} (m : M A) (f : A -> M B) s b s2 w :
  bind m f s = (Returned b, s2, w) ->
  exists a s1 w1 w2,
    m s = (Returned a, s1, w1) /\ f a s1 = (Returned b, s2, w2) /\ w = w1 ++ w2.
Proof.
  unfold bind. destruct (m s) as [[[a|e] s1] w1]; [|discriminate].
  destruct (f a s1) as [[r s2'] w2] eqn:E. intro H. inversion H; subst.
  exists a, s1, w1, w2. auto.
Qed.

(** With nothing being captured and the slot empty, an operation that
    returns leaves both so, nested calls included. *)
Lemma run_idle_state (op : Op) :
  forall s u s1 w,
    capturing s = false -> captured s = None ->
    run op s = (Returned u, s1, w) ->
    capturing s1 = false /\ captured s1 = None.
Proof.
  induction op as [|e|event k IH|crumb k IH|inner IHi k IHk];
    intros s u s1 w Hc Hs Hr; simpl in Hr.
  - inversion Hr; subst; auto.
  - discriminate.
  - apply bind_returned in Hr. destruct Hr as (a & s2 & w1 & w2 & H1 & H2 & _).
    rewrite (interceptRavenSend_idle event s Hc) in H1. inversion H1; subst.
    eapply IH; eauto.
  - apply bind_returned in Hr. destruct Hr as (a & s2 & w1 & w2 & H1 & H2 & _).
    rewrite (interceptRavenBreadcrumb_idle crumb s Hc) in H1. inversion H1; subst.
    eapply IH; eauto.
  - apply bind_returned in Hr. destruct Hr as (a & s2 & w1 & w2 & H1 & H2 & _).
    rewrite capture_unfold in H1.
    destruct (run inner (entry s)) as [[[u'|e] s3] w3]; [|discriminate].
    inversion H1; subst. eapply IHk; [| |exact H2]; reflexivity.
Qed.

(** Once an operation has called back into [capture] and returned, nothing
    is being captured and the slot is empty. *)
Lemma run_reenters (op : Op) :
  forall s u s1 w,
    reenters op = true ->
    run op s = (Returned u, s1, w) ->
    capturing s1 = false /\ captured s1 = None.
Proof.
  induction op as [|e|event k IH|crumb k IH|inner IHi k IHk];
    intros s u s1 w Hre Hr; simpl in *; try discriminate.
  - apply bind_returned in Hr. destruct Hr as (a & s2 & w1 & w2 & _ & H2 & _).
    eapply IH; eauto.
  - apply bind_returned in Hr. destruct Hr as (a & s2 & w1 & w2 & _ & H2 & _).
    eapply IH; eauto.
  - apply bind_returned in Hr. destruct Hr as (a & s2 & w1 & w2 & H1 & H2 & _).
    rewrite capture_unfold in H1.
    destruct (run inner (entry s)) as [[[u'|e] s3] w3]; [|discriminate].
    inversion H1; subst.
    eapply run_idle_state; [| |exact H2]; reflexivity.
Qed.

(** An operation that returns without calling back into [capture] has only
    fired hooks. *)
Lemma run_returned_fires_only (op : Op) :
  forall s u s1 w,
    reenters op = false ->
    run op s = (Returned u, s1, w) ->
    fires_only op = true.
Proof.
  induction op as [|e|event k IH|crumb k IH|inner IHi k IHk];
    intros s u s1 w Hre Hr; simpl in *; try discriminate; try reflexivity.
  - apply bind_returned in Hr. destruct Hr as (a & s2 & w1 & w2 & _ & H2 & _).
    eapply IH; eauto.
  - apply bind_returned in Hr. destruct Hr as (a & s2 & w1 & w2 & _ & H2 & _).
    eapply IH; eauto.
Qed.

(** Without a nested call, an operation keeps [capturing] as it found it,
    also when it throws. *)
Lemma run_keeps_capturing (op : Op) :
  forall s r s1 w,
    reenters op = false ->
    run op s = (r, s1, w) ->
    capturing s1 = capturing s.
Proof.
  induction op as [|e|event k IH|crumb k IH|inner IHi k IHk];
    intros s r s1 w Hre Hr; simpl in *; try discriminate.
  - inversion Hr; reflexivity.
  - inversion Hr; reflexivity.
  - rewrite bind_unfold in Hr.
    destruct (interceptRavenSend_returns event s) as (s2 & w2 & H1 & H2).
    rewrite H1 in Hr.
    destruct (run k s2) as [[r' s'] w'] eqn:E. simpl in Hr. inversion Hr; subst.
    rewrite <- H2. eapply IH; eauto.
  - rewrite bind_unfold in Hr.
    destruct (interceptRavenBreadcrumb_returns crumb s) as (s2 & w2 & H1 & H2).
    rewrite H1 in Hr.
    destruct (run k s2) as [[r' s'] w'] eqn:E. simpl in Hr. inversion Hr; subst.
    rewrite <- H2. eapply IH; eauto.
Qed.

Lemma slot_after_some (l : list Artifact) (a : Artifact) :
  slot_after None l = Some a -> exists earlier, l = earlier ++ [a].
Proof.
  destruct l as [|x l'] using rev_ind.
  - discriminate.
  - rewrite slot_after_last. intro H. inversion H; subst. eauto.
Qed.

(** X1. [captureBreadcrumb], once the hooks are installed, returns the
    breadcrumb it was given and has the engine record it once; it passes
    nothing to the client and leaves the bridge idle, whatever state it
    started in. *)
Theorem captureBreadcrumb_records_and_returns (crumb : Breadcrumb) (s : SentryNode) :
  captureBreadcrumb crumb s
  = (Returned (ACrumb crumb), fresh (client_dsn s), [RavenCaptureBreadcrumb crumb]).
Proof.
  unfold captureBreadcrumb. rewrite capture_unfold.
  rewrite (run_fires_only (FireBreadcrumb crumb Return) (entry s) eq_refl eq_refl).
  reflexivity.
Qed.

(** X2. While no bridged call is in progress, hooks that fire pass every
    artifact to the client, events to [client.send] and breadcrumbs to
    [client.captureBreadcrumb], in the order fired; the slot and the flag stay
    as they were and the engine records nothing. *)
Theorem idle_hooks_forward (op : Op) :
  forall s,
    fires_only op = true -> capturing s = false ->
    run op s = (Returned tt, s, forwards (firings op)).
Proof.
  induction op as [|e|event k IH|crumb k IH|inner IHi k IHk];
    intros s Hf Hc; simpl in *; try discriminate.
  - reflexivity.
  - unfold bind. rewrite (interceptRavenSend_idle event s Hc).
    rewrite (IH s Hf Hc). reflexivity.
  - unfold bind. rewrite (interceptRavenBreadcrumb_idle crumb s Hc).
    rewrite (IH s Hf Hc). reflexivity.
Qed.

Lemma idle_hooks_forward_witness :
  run (FireSend (Sample.an_event "a") (FireBreadcrumb (Sample.a_crumb "b") Return))
      (fresh None)
  = (Returned tt, fresh None,
     [ClientSend (Sample.an_event "a"); ClientCaptureBreadcrumb (Sample.a_crumb "b")]).
Proof.
  exact (@idle_hooks_forward
           (FireSend (Sample.an_event "a") (FireBreadcrumb (Sample.a_crumb "b") Return))
           (fresh None) eq_refl eq_refl).
Defined.

(** X3. For an operation that lets the error of a nested bridged call end
    it, as every [Op] does: [capture] returns an artifact only if the
    operation fired hooks, never called back into [capture], and returned; the
    artifact is then the one fired last, the bridge is idle again, and the
    only outside calls are the engine's recordings of the breadcrumbs
    fired. *)
Theorem capture_returns_only_last_firing (op : Op) (s s1 : SentryNode)
    (a : Artifact) (w : list Effect) :
  capture (run op) s = (Returned a, s1, w) ->
  reenters op = false /\
  fires_only op = true /\
  (exists earlier, firings op = earlier ++ [a]) /\
  s1 = fresh (client_dsn s) /\
  w = recordings (firings op).
Proof.
  intro H. rewrite capture_unfold in H.
  destruct (run op (entry s)) as [[[u|e] s2] w2] eqn:E; [|discriminate].
  destruct (captured s2) as [a'|] eqn:Hs; [|discriminate].
  inversion H; subst; clear H.
  assert (Hre : reenters op = false).
  { destruct (reenters op) eqn:Hre; [|reflexivity].
    destruct (run_reenters op (entry s) Hre E) as [_ Hn]. congruence. }
  pose proof (run_returned_fires_only op (entry s) Hre E) as Hf.
  rewrite (run_fires_only op (entry s) Hf eq_refl) in E.
  inversion E; subst; clear E. simpl in Hs.
  repeat split; auto. apply slot_after_some. exact Hs.
Qed.

Lemma capture_returns_only_last_firing_witness :
  let op :=
    FireSend (Sample.an_event "first")
      (FireBreadcrumb (Sample.a_crumb "click")
         (FireSend (Sample.an_event "last") Return)) in
  reenters op = false /\
  fires_only op = true /\
  (exists earlier, firings op = earlier ++ [AnEvent (Sample.an_event "last")]) /\
  fresh None = fresh None /\
  [RavenCaptureBreadcrumb (Sample.a_crumb "click")] = recordings (firings op).
Proof.
  exact (@capture_returns_only_last_firing
           (FireSend (Sample.an_event "first")
              (FireBreadcrumb (Sample.a_crumb "click")
                 (FireSend (Sample.an_event "last") Return)))
           (fresh None) (fresh None)
           (AnEvent (Sample.an_event "last"))
           [RavenCaptureBreadcrumb (Sample.a_crumb "click")] eq_refl).
Defined.

(** X4. When every nested bridged call of an operation returns (an [Op]
    cannot go on after one that throws) and the operation then returns, the
    enclosing call fails: the last nested call has cleared the slot and the
    flag, so the enclosing [capture] throws [Error('Could not capture.')],
    whatever hooks fired before or after the nested calls. *)
Theorem reentrant_capture_fails (op : Op) (s : SentryNode) u s1 w :
  reenters op = true ->
  run op (entry s) = (Returned u, s1, w) ->
  capture (run op) s
  = (Threw (Error "Could not capture."), fresh (client_dsn s), w).
Proof.
  intros Hre Hr. rewrite capture_unfold, Hr.
  destruct (run_reenters op (entry s) Hre Hr) as [_ Hs]. rewrite Hs.
  apply run_client_dsn in Hr. simpl in Hr. rewrite Hr. reflexivity.
Qed.

Lemma reentrant_capture_fails_witness :
  capture
    (run (FireSend (Sample.an_event "outer")
            (Reenter (FireSend (Sample.an_event "inner") Return)
               (FireSend (Sample.an_event "late") Return))))
    (fresh None)
  = (Threw (Error "Could not capture."), fresh None,
     [ClientSend (Sample.an_event "late")]).
Proof.
  exact (@reentrant_capture_fails
           (FireSend (Sample.an_event "outer")
              (Reenter (FireSend (Sample.an_event "inner") Return)
                 (FireSend (Sample.an_event "late") Return)))
           (fresh None) tt (fresh None) [ClientSend (Sample.an_event "late")]
           eq_refl eq_refl).
Defined.

(** X5. When an operation without nested calls throws, [capture] passes the
    error on and leaves [capturing] set; from then until the next bridged
    call, an event that the engine sends on its own is put in the slot and
    never reaches [client.send]. *)
Theorem thrown_operation_leaves_bridge_capturing (op : Op) (s s1 : SentryNode)
    (e : Exn) (w : list Effect) :
  reenters op = false ->
  run op (entry s) = (Threw e, s1, w) ->
  capture (run op) s = (Threw e, s1, w) /\
  capturing s1 = true /\
  forall event,
    interceptRavenSend event s1
    = (Returned tt, set_captured (Some (AnEvent event)) s1, []).
Proof.
  intros Hre Hr.
  pose proof (run_keeps_capturing op (entry s) Hre Hr) as Hc. simpl in Hc.
  split; [|split].
  - rewrite capture_unfold, Hr. reflexivity.
  - exact Hc.
  - intro event. unfold interceptRavenSend, bind, get_capturing, put_captured.
    rewrite Hc. reflexivity.
Qed.

Lemma thrown_operation_leaves_bridge_capturing_witness :
  capture (run (Throw (Error "boom"))) (fresh None)
  = (Threw (Error "boom"), entry (fresh None), []) /\
  capturing (entry (fresh None)) = true /\
  forall event,
    interceptRavenSend event (entry (fresh None))
    = (Returned tt, set_captured (Some (AnEvent event)) (entry (fresh None)), []).
Proof.
  exact (@thrown_operation_leaves_bridge_capturing
           (Throw (Error "boom")) (fresh None) (entry (fresh None))
           (Error "boom") [] eq_refl eq_refl).
Defined.

Section OptionsFacts.
Variable V : Type.

Lemma prop_assign1 (key k : string) (v : V) (o : Obj V) :
  prop k (assign1 key v o) = if String.eqb key k then Some v else prop k o.
Proof.
  induction o as [|[k' v'] rest IH]; simpl.
  - reflexivity.
  - destruct (String.eqb k' key) eqn:E; simpl.
    + apply String.eqb_eq in E. subst k'.
      destruct (String.eqb key k); reflexivity.
    + destruct (String.eqb k' k) eqn:E'.
      * apply String.eqb_eq in E'. subst k'.
        rewrite String.eqb_sym, E. reflexivity.
      * exact IH.
Qed.

Lemma prop_not_in (k : string) (o : Obj V) :
  ~ In k (keys o) -> prop k o = None.
Proof.
  induction o as [|[k' v'] rest IH]; simpl; intro H.
  - reflexivity.
  - destruct (String.eqb k' k) eqn:E.
    + apply String.eqb_eq in E. tauto.
    + apply IH. tauto.
Qed.

(** A property after [Object.assign]: the source's when it has the key, else
    the target's. *)
Lemma prop_Object_assign (source : Obj V) :
  forall (target : Obj V) (k : string),
    NoDup (keys source) ->
    prop k (Object_assign target source)
    = match prop k source with
      | Some v => Some v
      | None => prop k target
      end.
Proof.
  unfold Object_assign.
  induction source as [|[k1 v1] rest IH]; intros target k Hnd; simpl.
  - reflexivity.
  - inversion Hnd as [|? ? Hnin Hnd']; subst.
    rewrite (IH _ k Hnd'), prop_assign1.
    destruct (String.eqb k1 k) eqn:E.
    + apply String.eqb_eq in E. subst k1.
      rewrite (prop_not_in _ _ Hnin). reflexivity.
    + reflexivity.
Qed.

Lemma keys_assign1 (key : string) (v : V) (o : Obj V) :
  keys (assign1 key v o) = if existsb (String.eqb key) (keys o) then keys o
                           else keys o ++ [key].
Proof.
  induction o as [|[k' v'] rest IH]; simpl.
  - reflexivity.
  - rewrite (String.eqb_sym key k').
    destruct (String.eqb k' key) eqn:E; simpl.
    + reflexivity.
    + rewrite IH. destruct (existsb (String.eqb key) (keys rest)); reflexivity.
Qed.

Lemma NoDup_assign1 (key : string) (v : V) (o : Obj V) :
  NoDup (keys o) -> NoDup (keys (assign1 key v o)).
Proof.
  intro H. rewrite keys_assign1.
  destruct (existsb (String.eqb key) (keys o)) eqn:E; [exact H|].
  apply NoDup_app; [exact H|constructor; [simpl; tauto|constructor]|].
  intros x Hx [Hk|[]]. subst x.
  assert (existsb (String.eqb key) (keys o) = true); [|congruence].
  apply existsb_exists. exists key. split; [exact Hx|apply String.eqb_refl].
Qed.

Lemma NoDup_Object_assign (source : Obj V) :
  forall target, NoDup (keys target) -> NoDup (keys (Object_assign target source)).
Proof.
  unfold Object_assign.
  induction source as [|[k1 v1] rest IH]; intros target H; simpl.
  - exact H.
  - apply IH. apply NoDup_assign1. exact H.
Qed.

(** X6. [setOptions] merges: afterwards a property of [this.options] is the
    one passed in when the call has that key and the old one otherwise, and a
    property of the [Raven] object is that of the merged options when they
    have the key and Raven's own otherwise. The promise is resolved. *)
Theorem setOptions_merges (options this_options Raven : Obj V) :
  NoDup (keys options) -> NoDup (keys this_options) ->
  forall k,
    let '(p, this_options', Raven') := setOptions options this_options Raven in
    p = Resolved tt /\
    prop k this_options'
    = match prop k options with
      | Some v => Some v
      | None => prop k this_options
      end /\
    prop k Raven'
    = match prop k options with
      | Some v => Some v
      | None =>
          match prop k this_options with
          | Some v => Some v
          | None => prop k Raven
          end
      end.
Proof.
  intros Ho Ht k. unfold setOptions. split; [reflexivity|].
  rewrite (prop_Object_assign options this_options k Ho).
  split; [reflexivity|].
  rewrite prop_Object_assign by (apply NoDup_Object_assign; exact Ht).
  rewrite (prop_Object_assign options this_options k Ho).
  destruct (prop k options); [reflexivity|].
  destruct (prop k this_options); reflexivity.
Qed.

End OptionsFacts.

Lemma setOptions_merges_witness :
  let '(p, this_options', Raven') :=
    setOptions [("release", 2%Z)] [("release", 1%Z); ("maxBreadcrumbs", 30%Z)]
               [("environment", 7%Z)] in
  p = Resolved tt /\
  prop "maxBreadcrumbs" this_options' = Some 30%Z /\
  prop "maxBreadcrumbs" Raven' = Some 30%Z.
Proof.
  apply (@setOptions_merges Z [("release", 2%Z)]
           [("release", 1%Z); ("maxBreadcrumbs", 30%Z)] [("environment", 7%Z)]).
  - repeat constructor; simpl; tauto.
  - repeat constructor; simpl; intuition discriminate.
Defined.

End BridgeFacts.

(** ** More on the normalizer, the dispatch and [install] *)

Module BackendFacts.
Import Browser Install BrowserFacts.

Section MoreNormalizerFacts.
Context {P : Parsers}.

Lemma eventFromMessage_exception (v : JsValue) :
  exists ev, eventFromMessage v = Resolved ev /\ exception ev = None.
Proof. eexists. split; reflexivity. Qed.

Lemma eventFromError_exception (v : JsValue) :
  exists ev d, eventFromError v = Resolved ev /\ exception ev = Some d.
Proof. do 2 eexists. split; reflexivity. Qed.

(** X7. Whenever [eventFromException] resolves, its event lacks an
    exception descriptor exactly for the legacy DOM error shapes and for the
    inputs that no test recognizes; wrapped error events, standard errors and
    plain objects all get one. *)
Theorem exception_descriptor_by_shape (x : JsValue) (ev : SentryEvent) :
  eventFromException x = Resolved ev ->
  (exception ev = None <-> classify x = DomLegacyError \/ classify x = Other).
Proof.
  rewrite eventFromException_classify.
  destruct (classify x) eqn:E; cbv zeta; intro H.
  - destruct (eventFromError_exception (get x "error")) as (ev' & d & H1 & H2).
    rewrite H1 in H. inversion H; subst. rewrite H2.
    split; [discriminate|intros [H'|H']; discriminate].
  - match type of H with context [eventFromMessage ?v] =>
      destruct (eventFromMessage_exception v) as (ev' & H1 & H2) end.
    rewrite H1 in H. inversion H; subst. split; auto.
  - destruct (eventFromError_exception x) as (ev' & d & H1 & H2).
    rewrite H1 in H. inversion H; subst. rewrite H2.
    split; [discriminate|intros [H'|H']; discriminate].
  - match type of H with context [eventFromError ?v] =>
      destruct (eventFromError_exception v) as (ev' & d & H1 & H2) end.
    rewrite H1 in H. inversion H; subst. rewrite H2.
    split; [discriminate|intros [H'|H']; discriminate].
  - destruct (eventFromMessage_exception x) as (ev' & H1 & H2).
    rewrite H1 in H. inversion H; subst. split; auto.
Qed.

(** X8. An error event with an [error] is unwrapped and its [error] goes
    down the exception path without being classified again: when the wrapped
    value is a standard error the event is the one that the error gives on its
    own, and whatever the wrapped value is, the event has an exception
    descriptor. *)
Theorem wrapped_error_event_unwraps (x : JsValue) :
  classify x = WrappedEvent ->
  (classify (get x "error") = StandardError ->
   eventFromException x = eventFromException (get x "error")) /\
  exists ev d, eventFromException x = Resolved ev /\ exception ev = Some d.
Proof.
  intro H. rewrite eventFromException_classify, H. split.
  - intro Hi. rewrite (eventFromException_classify (get x "error")), Hi.
    reflexivity.
  - apply eventFromError_exception.
Qed.

(** X9. A legacy DOM error with a name is reported as the message
    ["<name>: <message>"] when it has a message and as its name alone when it
    has none; the message is also the fingerprint. *)
Theorem dom_error_message (x : JsValue) (n : string) :
  isDOMError x = true \/ isDOMException x = true ->
  get x "name" = JsString n -> n <> "" ->
  let m := if truthy (get x "message")
           then (n ++ ": " ++ ToString (get x "message"))%string
           else n in
  exists frames,
    eventFromException x =
    Resolved {| message := Some m;
                exception := None;
                fingerprint := Some [m];
                stacktrace := Some frames;
                transaction := None |}.
Proof.
  intros Hd Hn Hne m.
  rewrite eventFromException_classify, (classify_dom x Hd). cbv zeta.
  unfold jsOr. rewrite Hn. simpl truthy.
  apply String.eqb_neq in Hne. rewrite Hne. simpl negb. cbv iota.
  subst m. destruct (truthy (get x "message")).
  - eexists. reflexivity.
  - eexists. reflexivity.
Qed.

(** X10. A legacy DOM error without a name is reported under the name of its
    kind, ["DOMError"] or ["DOMException"], again followed by [": "] and its
    message when it has one. *)
Theorem dom_error_default_name (x : JsValue) :
  isDOMError x = true \/ isDOMException x = true ->
  truthy (get x "name") = false ->
  let n := if isDOMError x then "DOMError" else "DOMException" in
  let m := if truthy (get x "message")
           then (n ++ ": " ++ ToString (get x "message"))%string
           else n in
  exists frames,
    eventFromException x =
    Resolved {| message := Some m;
                exception := None;
                fingerprint := Some [m];
                stacktrace := Some frames;
                transaction := None |}.
Proof.
  intros Hd Hn n m.
  rewrite eventFromException_classify, (classify_dom x Hd). cbv zeta.
  unfold jsOr. rewrite Hn. subst m n.
  destruct (truthy (get x "message")); eexists; reflexivity.
Qed.

(** X11. Of a plain object the event keeps only the message that
    [getEventOptionsFromPlainObject] derives: two plain objects with the same
    derived message give the same event. *)
Theorem plain_objects_group_by_message (x y : JsValue) :
  isPlainObject x = true -> isPlainObject y = true ->
  message (getEventOptionsFromPlainObject x)
  = message (getEventOptionsFromPlainObject y) ->
  eventFromException x = eventFromException y.
Proof.
  intros Hx Hy Hm.
  rewrite !eventFromException_classify, (classify_plain x Hx), (classify_plain y Hy).
  rewrite Hm. reflexivity.
Qed.

(** X12. A primitive is never taken for an error. It is reported as a
    message, which is also the fingerprint, with a synthetic stack trace and
    no exception descriptor; the message is the string itself for a string,
    ["undefined"], ["null"], ["true"] or ["false"] for those values, and for a
    number ["NaN"], ["Infinity"], ["-Infinity"], ["0"] for either zero, the
    decimal digits of an integer below [2^53] in size, and what the runtime
    prints for any other. *)
Theorem primitive_reported_as_message (x : JsValue) :
  class_of x = None ->
  let m :=
    match x with
    | JsUndefined => "undefined"
    | JsNull => "null"
    | JsBoolean true => "true"
    | JsBoolean false => "false"
    | JsString s => s
    | JsNumber S754_nan => "NaN"
    | JsNumber (S754_infinity false) => "Infinity"
    | JsNumber (S754_infinity true) => "-Infinity"
    | JsNumber (S754_zero _) => "0"
    | JsNumber n =>
        match integer_of n with
        | Some z =>
            if (Z.abs z <? 2 ^ 53)%Z then NilZero.string_of_int (Z.to_int z)
            else numberToString n
        | None => numberToString n
        end
    | JsObject _ _ => ""
    end in
  classify x = Other /\
  exists frames,
    eventFromException x =
    Resolved {| message := Some m;
                exception := None;
                fingerprint := Some [m];
                stacktrace := Some frames;
                transaction := None |}.
Proof.
  intros H m. split; [destruct x; try discriminate; reflexivity|].
  destruct x as [| |[]|[]|s|]; try discriminate; eexists; reflexivity.
Qed.

End MoreNormalizerFacts.

Lemma wrapped_error_event_unwraps_witness :
  @eventFromException Sample.parsers Fixtures.error_event
  = @eventFromException Sample.parsers Sample.type_error.
Proof.
  apply (proj1 (@wrapped_error_event_unwraps Sample.parsers Fixtures.error_event eq_refl)).
  reflexivity.
Defined.

Lemma dom_error_message_witness :
  exists frames,
    @eventFromException Sample.parsers Sample.dom_exception =
    Resolved {| message := Some "SecurityError: denied";
                exception := None;
                fingerprint := Some ["SecurityError: denied"];
                stacktrace := Some frames;
                transaction := None |}.
Proof.
  apply (@dom_error_message Sample.parsers Sample.dom_exception "SecurityError").
  - right. reflexivity.
  - reflexivity.
  - discriminate.
Defined.

Lemma dom_error_default_name_witness :
  exists frames,
    @eventFromException Sample.parsers Fixtures.bare_dom_error =
    Resolved {| message := Some "DOMError";
                exception := None;
                fingerprint := Some ["DOMError"];
                stacktrace := Some frames;
                transaction := None |}.
Proof.
  apply (@dom_error_default_name Sample.parsers Fixtures.bare_dom_error).
  - left. reflexivity.
  - reflexivity.
Defined.

Lemma plain_objects_group_by_message_witness :
  @eventFromException Sample.parsers Sample.plain_object
  = @eventFromException Sample.parsers
      (JsObject ClsObject [("code", JsNumber (num 7)); ("reason", JsString "y")]).
Proof.
  apply (@plain_objects_group_by_message Sample.parsers); reflexivity.
Defined.

Lemma primitive_reported_as_message_witness :
  classify (JsNumber (num 42)) = Other /\
  exists frames,
    @eventFromException Sample.parsers (JsNumber (num 42)) =
    Resolved {| message := Some "42";
                exception := None;
                fingerprint := Some ["42"];
                stacktrace := Some frames;
                transaction := None |}.
Proof.
  apply (@primitive_reported_as_message Sample.parsers (JsNumber (num 42))).
  reflexivity.
Defined.

Lemma exception_descriptor_by_shape_witness :
  exception
    {| message := Some "SecurityError: denied";
       exception := None;
       fingerprint := Some ["SecurityError: denied"];
       stacktrace :=
         Some [ {| filename := ""; function := "    at BrowserBackend.eventFromMessage";
                   lineno := 0; colno := 0 |} ];
       transaction := None |} = None
  <-> classify Sample.dom_exception = DomLegacyError
      \/ classify Sample.dom_exception = Other.
Proof.
  apply (@exception_descriptor_by_shape Sample.parsers Sample.dom_exception).
  reflexivity.
Defined.

Section MoreDispatchFacts.
Context {R : Runtime}.

(** X13. [sendEvent] ends in one of two ways. Either it rejects before any
    transport exists, with its own error when the DSN is unset or empty and
    with the DSN constructor's error when the string does not parse; or it
    builds one transport, sends the event with it once, and returns that
    send's outcome unchanged. *)
Theorem sendEvent_outcomes (options : BrowserOptions) (event : SentryEvent) :
  (dsn_missing (dsn options) = true /\
   sendEvent options event
   = (Rejected (SentryError "Cannot sendEvent without a valid DSN"), [])) \/
  (exists d e,
      dsn options = Some d /\ newDSN d = Threw e /\
      sendEvent options event = (Rejected e, [])) \/
  (exists c o,
      sendEvent options event
      = (transportSend c o event, [New c o; TransportSend c o event])).
Proof.
  unfold sendEvent, dsn_missing.
  destruct (dsn options) as [d|]; [|left; auto].
  destruct (String.eqb d ""); [left; auto|].
  right. destruct (newDSN d) as [parsed|e] eqn:E.
  - right.
    destruct (transport options) as [custom|]; [|destruct supportsFetch];
      do 2 eexists; reflexivity.
  - left. exists d, e. auto.
Qed.

(** X14. With [transportOptions] given and no transport class of the
    caller's, the configured DSN only has to be there and to parse: the
    transport is built from [transportOptions] alone, so another DSN that
    parses gives the same call. *)
Theorem transportOptions_override_dsn (d1 d2 : string) (p1 p2 : DSN)
    (o : TransportOptions) (event : SentryEvent) :
  d1 <> "" -> d2 <> "" ->
  newDSN d1 = Returned p1 -> newDSN d2 = Returned p2 ->
  let c := if supportsFetch then FetchTransport else XHRTransport in
  sendEvent (mkOptions (Some d1) None (Some o)) event
  = (transportSend c o event, [New c o; TransportSend c o event]) /\
  sendEvent (mkOptions (Some d1) None (Some o)) event
  = sendEvent (mkOptions (Some d2) None (Some o)) event.
Proof.
  intros H1 H2 Hp1 Hp2 c.
  assert (E : forall d p, d <> "" -> newDSN d = Returned p ->
              sendEvent (mkOptions (Some d) None (Some o)) event
              = (transportSend c o event, [New c o; TransportSend c o event])).
  { intros d p Hd Hp. unfold sendEvent. simpl.
    apply String.eqb_neq in Hd. rewrite Hd, Hp. subst c.
    destruct supportsFetch; reflexivity. }
  split.
  - exact (E d1 p1 H1 Hp1).
  - rewrite (E d1 p1 H1 Hp1), (E d2 p2 H2 Hp2). reflexivity.
Qed.

(** X15. [install] and [sendEvent] agree on when the DSN is missing:
    [install] throws its invariant error without a call to Raven exactly when
    [sendEvent] rejects with its DSN error without building a transport, and
    that is when [options.dsn] is unset or empty. When [install] returns it
    returns [true], having configured Raven with that DSN first. *)
Theorem install_requires_dsn (ravenConfig : string -> BrowserOptions -> Res unit)
    (options : BrowserOptions) (event : SentryEvent) :
  (dsn_missing (dsn options) = true ->
   install ravenConfig options
   = (Threw (SentryError "Invariant exception: install() must not be called when disabled"), []) /\
   sendEvent options event
   = (Rejected (SentryError "Cannot sendEvent without a valid DSN"), [])) /\
  (dsn_missing (dsn options) = false ->
   exists d rest,
     dsn options = Some d /\
     snd (install ravenConfig options) = RavenConfig d options :: rest /\
     (forall b, fst (install ravenConfig options) = Returned b -> b = true) /\
     (snd (sendEvent options event) <> [] \/ exists e, newDSN d = Threw e)).
Proof.
  unfold dsn_missing, install, sendEvent.
  destruct (dsn options) as [d|]; [|split; [auto|discriminate]].
  destruct (String.eqb d ""); split; try discriminate; auto.
  intros _. exists d.
  destruct (ravenConfig d options) as [[]|e0]; eexists;
    (split; [reflexivity|]); (split; [reflexivity|]); simpl;
    (split; [intros b Hb; inversion Hb; reflexivity || discriminate|]).
  all: destruct (newDSN d) as [parsed|e] eqn:E; [left|right; eauto].
  all: destruct (transport options); [|destruct supportsFetch]; discriminate.
Qed.

End MoreDispatchFacts.

Lemma sendEvent_outcomes_invalid_dsn :
  @sendEvent Fixtures.strict_runtime (mkOptions (Some "not a dsn") None None)
    (Sample.an_event "m")
  = (Rejected (SentryError "Invalid DSN"), []).
Proof. reflexivity. Qed.

Lemma transportOptions_override_dsn_witness :
  let o := {| to_dsn := mkDSN "https://other@sentry.example.com/2";
              to_fields := [("timeout", "2000")] |} in
  @sendEvent Fixtures.strict_runtime
    (mkOptions (Some "https://public@sentry.example.com/1") None (Some o))
    (Sample.an_event "m")
  = @sendEvent Fixtures.strict_runtime
      (mkOptions (Some "https://another@sentry.example.com/3") None (Some o))
      (Sample.an_event "m").
Proof.
  apply (proj2 (@transportOptions_override_dsn Fixtures.strict_runtime
                  "https://public@sentry.example.com/1"
                  "https://another@sentry.example.com/3"
                  (mkDSN "https://public@sentry.example.com/1")
                  (mkDSN "https://another@sentry.example.com/3")
                  {| to_dsn := mkDSN "https://other@sentry.example.com/2";
                     to_fields := [("timeout", "2000")] |}
                  (Sample.an_event "m")
                  ltac:(discriminate) ltac:(discriminate) eq_refl eq_refl)).
Defined.

Lemma install_requires_dsn_witness :
  install (fun _ _ => Returned tt) (mkOptions (Some "") None None)
  = (Threw (SentryError "Invariant exception: install() must not be called when disabled"), []) /\
  exists d rest,
    snd (install (fun _ _ => Returned tt)
           (mkOptions (Some "https://public@sentry.example.com/1") None None))
    = RavenConfig d (mkOptions (Some "https://public@sentry.example.com/1") None None)
        :: rest.
Proof.
  split.
  - apply (proj1 (@install_requires_dsn Fixtures.strict_runtime (fun _ _ => Returned tt)
                    (mkOptions (Some "") None None) (Sample.an_event "m"))).
    reflexivity.
  - destruct (proj2 (@install_requires_dsn Fixtures.strict_runtime (fun _ _ => Returned tt)
                       (mkOptions (Some "https://public@sentry.example.com/1") None None)
                       (Sample.an_event "m")) eq_refl)
      as (d & rest & _ & H & _).
    exists d, rest. exact H.
Defined.

End BackendFacts.
